(** * combined_teleop: keyboard teleoperation of a mobile base and a pan-tilt unit

    A shallow embedding of [teleop_demo/combined_teleop.py].

    - Python [float] is IEEE 754 binary64: modelled by the kernel's primitive
      [float], whose operations are specified by [FloatAxioms].
    - Python [int] is [Z]; an [int] operand of a float operation is first
      converted ([float_of_int]).
    - The three binding dictionaries are [gmap string _].
    - [CombinedTeleopNode] is the record [Node]; the main loop threads it
      through [loop_body], and the effects of [main] on the message bus
      and on the terminal are collected as a list of [event]s (console output
      is left out: nothing reads it back). *)

From Stdlib Require Import ZArith List Bool Ascii String Lia.
From Stdlib Require Import Floats.
From stdpp Require Import base option list gmap strings.

Set Warnings "-inexact-float".

Local Open Scope Z_scope.
Local Open Scope string_scope.
Local Open Scope list_scope.

(** ** Python numbers *)

Module Py.

(** [float(n)] for an [int] [n]: the nearest binary64 value. *)
Definition float_of_int (n : Z) : float :=
  SF2Prim (binary_normalize prec emax n 0 false).

(** A number as it appears in a tuple literal: [1] is an [int], [1.1] a
    [float]. *)
Inductive num : Type :=
| Int (n : Z)
| Float (f : float).

Definition to_float (v : num) : float :=
  match v with
  | Int n => float_of_int n
  | Float f => f
  end.

(** The builtin [min(a, b)] keeps [a] unless [b < a]. *)
Definition min (a b : float) : float :=
  if PrimFloat.ltb b a then b else a.

(** The builtin [max(a, b)] keeps [a] unless [b > a]. *)
Definition max (a b : float) : float :=
  if PrimFloat.ltb a b then b else a.

End Py.

(** ** Configuration tables *)

(** The escape character ['\x1b'] and the interrupt byte ['\x03']. *)
Definition ESC : ascii := "027"%char.
Definition ETX : ascii := "003"%char.

Definition MOVE_BINDINGS : gmap string (Z * Z * Z * Z) :=
  list_to_map
    [ ("i", (1, 0, 0, 0)); ("o", (1, 0, 0, -1)); ("j", (0, 0, 0, 1)); ("l", (0, 0, 0, -1));
      ("u", (1, 0, 0, 1)); (",", (-1, 0, 0, 0)); (".", (-1, 0, 0, 1)); ("m", (-1, 0, 0, -1));
      ("O", (1, -1, 0, 0)); ("I", (1, 0, 0, 0)); ("J", (0, 1, 0, 0)); ("L", (0, -1, 0, 0));
      ("U", (1, 1, 0, 0)); ("<", (-1, 0, 0, 0)); (">", (-1, -1, 0, 0)); ("M", (-1, 1, 0, 0));
      ("t", (0, 0, 1, 0)); ("b", (0, 0, -1, 0)) ].

Definition SPEED_BINDINGS : gmap string (Py.num * Py.num) :=
  list_to_map
    [ ("q", (Py.Float 1.1, Py.Float 1.1)); ("z", (Py.Float 0.9, Py.Float 0.9));
      ("w", (Py.Float 1.1, Py.Int 1)); ("x", (Py.Float 0.9, Py.Int 1));
      ("e", (Py.Int 1, Py.Float 1.1)); ("c", (Py.Int 1, Py.Float 0.9)) ].

Definition UP_ARROW : string := String ESC "[A".
Definition DOWN_ARROW : string := String ESC "[B".
Definition LEFT_ARROW : string := String ESC "[D".
Definition RIGHT_ARROW : string := String ESC "[C".

Definition PTU_BINDINGS : gmap string (Z * Z) :=
  list_to_map
    [ (UP_ARROW, (0, -1)); (DOWN_ARROW, (0, 1));
      (LEFT_ARROW, (1, 0)); (RIGHT_ARROW, (-1, 0)) ].

(** ** The node *)

Record Node : Type := mkNode {
  ptu_step : float;
  max_pan : float;
  min_pan : float;
  max_tilt : float;
  min_tilt : float;
  speed : float;
  turn : float;
  x : Z;
  y : Z;
  z : Z;
  th : Z;
  pan_angle : float;
  tilt_angle : float
}.

(** [CombinedTeleopNode.__init__] *)
Definition init_node : Node :=
  {| ptu_step := 2.0; max_pan := 55.0; min_pan := -55.0;
     max_tilt := 55.0; min_tilt := -55.0;
     speed := 0.5; turn := 1.0;
     x := 0; y := 0; z := 0; th := 0;
     pan_angle := 0.0; tilt_angle := 0.0 |}.

Definition set_intent (node : Node) (v : Z * Z * Z * Z) : Node :=
  let '(vx, vy, vz, vth) := v in
  {| ptu_step := ptu_step node; max_pan := max_pan node; min_pan := min_pan node;
     max_tilt := max_tilt node; min_tilt := min_tilt node;
     speed := speed node; turn := turn node;
     x := vx; y := vy; z := vz; th := vth;
     pan_angle := pan_angle node; tilt_angle := tilt_angle node |}.

Definition set_scales (node : Node) (s t : float) : Node :=
  {| ptu_step := ptu_step node; max_pan := max_pan node; min_pan := min_pan node;
     max_tilt := max_tilt node; min_tilt := min_tilt node;
     speed := s; turn := t;
     x := x node; y := y node; z := z node; th := th node;
     pan_angle := pan_angle node; tilt_angle := tilt_angle node |}.

Definition set_angles (node : Node) (p t : float) : Node :=
  {| ptu_step := ptu_step node; max_pan := max_pan node; min_pan := min_pan node;
     max_tilt := max_tilt node; min_tilt := min_tilt node;
     speed := speed node; turn := turn node;
     x := x node; y := y node; z := z node; th := th node;
     pan_angle := p; tilt_angle := t |}.

(** ** One iteration of the main loop, after the key has been read *)

Inductive flow : Type := Continue | Break.

(** Lines 153-166, "Robot Control Logic". *)
Definition robot_control (key : string) (node : Node) : Node * flow :=
  match MOVE_BINDINGS !! key with
  | Some v => (set_intent node v, Continue)
  | None =>
    match SPEED_BINDINGS !! key with
    | Some (fl, ft) =>
      (set_scales node (speed node * Py.to_float fl) (turn node * Py.to_float ft), Continue)
    | None =>
      let node' :=
        if bool_decide (PTU_BINDINGS !! key = None) && negb (String.eqb key " ")
        then set_intent node (0, 0, 0, 0)
        else node in
      if String.eqb key "q" || String.eqb key (String ETX "")
      then (node', Break)
      else (node', Continue)
    end
  end.

(** Lines 169-178, "PTU Control Logic". *)
Definition ptu_control (key : string) (node : Node) : Node :=
  match PTU_BINDINGS !! key with
  | Some (dpan, dtilt) =>
    let pan := (pan_angle node + Py.float_of_int dpan * ptu_step node)%float in
    let tilt := (tilt_angle node + Py.float_of_int dtilt * ptu_step node)%float in
    let pan := Py.max (min_pan node) (Py.min (max_pan node) pan) in
    let tilt := Py.max (min_tilt node) (Py.min (max_tilt node) tilt) in
    set_angles node pan tilt
  | None =>
    if String.eqb key " " then set_angles node 0.0 0.0 else node
  end.

(** The state update of one loop iteration: [break] leaves before the PTU
    logic runs. *)
Definition loop_body (key : string) (node : Node) : Node * flow :=
  match robot_control key node with
  | (node', Break) => (node', Break)
  | (node', Continue) => (ptu_control key node', Continue)
  end.

(** The keys of a whole session, one per iteration, until the loop breaks. *)
Fixpoint run_keys (keys : list string) (node : Node) : Node :=
  match keys with
  | [] => node
  | key :: keys' =>
    match loop_body key node with
    | (node', Break) => node'
    | (node', Continue) => run_keys keys' node'
    end
  end.

(** ** Messages and observable effects *)

Record Vector3 : Type := mkVector3 { vec_x : float; vec_y : float; vec_z : float }.

Record Twist : Type := mkTwist { linear : Vector3; angular : Vector3 }.

Record PanTiltCmdDeg : Type := mkPanTiltCmdDeg {
  cmd_speed : Z;
  cmd_yaw : float;
  cmd_pitch : float
}.

(** [Twist()]: every field of a fresh message is [0.0]. *)
Definition Twist_default : Twist :=
  {| linear := mkVector3 0 0 0; angular := mkVector3 0 0 0 |}.

Inductive event : Type :=
| SetRaw                              (* tty.setraw(sys.stdin.fileno()) *)
| RestoreTerminal                     (* termios.tcsetattr(sys.stdin, TCSADRAIN, settings) *)
| PublishTwist (msg : Twist)          (* self.twist_pub.publish *)
| PublishPtu (msg : PanTiltCmdDeg)    (* self.ptu_pub.publish *)
| DestroyNode                         (* node.destroy_node() *)
| Shutdown.                           (* rclpy.shutdown() *)

(** ** Effects: a trace of events and a possibly raised exception *)

(** [except Exception] catches [PyException] and lets [KeyboardInterrupt],
    which derives from [BaseException] only, go through. *)
Inductive exn : Type := PyException | KeyboardInterrupt.

Inductive outcome (A : Type) : Type :=
| Done (a : A)
| Raised (e : exn).
Arguments Done {A} a.
Arguments Raised {A} e.

Definition IO (A : Type) : Type := list event * outcome A.

#[export] Instance IO_ret : MRet IO := fun A a => ([], Done a).

#[export] Instance IO_bind : MBind IO := fun A B k m =>
  match m with
  | (tr, Done a) => let '(tr', r) := k a in (tr ++ tr', r)
  | (tr, Raised e) => (tr, Raised e)
  end.

Definition emit (ev : event) : IO unit := ([ev], Done tt).
Definition raise {A} (e : exn) : IO A := ([], Raised e).

(** [try: body  except Exception: handler] *)
Definition try_except {A} (body : IO A) (handler : IO A) : IO A :=
  match body with
  | (tr, Raised PyException) => let '(tr', r) := handler in (tr ++ tr', r)
  | _ => body
  end.

(** [try: body  finally: fin]: [fin] runs on every way out of [body], and an
    exception still pending afterwards is raised again. *)
Definition try_finally {A} (body : IO A) (fin : IO unit) : IO A :=
  match body, fin with
  | (tr, r), (tr', Done _) => (tr ++ tr', r)
  | (tr, _), (tr', Raised e) => (tr ++ tr', Raised e)
  end.

Definition events {A} (m : IO A) : list event := fst m.

(** ** Key decoder *)

(** [get_key] on a terminal whose input queue holds [pending]: the decoded key
    and the bytes left in the queue.  An empty queue is [select] timing out
    after 0.1 s.  After an escape byte the two-byte read takes what the queue
    holds. *)
Definition get_key (pending : list ascii) : IO (string * list ascii) :=
  emit SetRaw ;;
  let r := match pending with
           | [] => ("", [])
           | c :: rest =>
             if Ascii.eqb c ESC
             then (String c (string_of_list_ascii (take 2 rest)), drop 2 rest)
             else (String c "", rest)
           end in
  emit RestoreTerminal ;;
  mret r.

(** ** Publishing *)

(** [CombinedTeleopNode.publish_commands], the timer callback. *)
Definition publish_commands (node : Node) : IO unit :=
  let twist :=
    {| linear := mkVector3 (Py.float_of_int (x node) * speed node)
                           (Py.float_of_int (y node) * speed node)
                           (Py.float_of_int (z node) * speed node);
       angular := mkVector3 0.0 0.0 (Py.float_of_int (th node) * turn node) |} in
  emit (PublishTwist twist) ;;
  let ptu_cmd := {| cmd_speed := 30; cmd_yaw := pan_angle node; cmd_pitch := tilt_angle node |} in
  emit (PublishPtu ptu_cmd).

(** [CombinedTeleopNode.stop_robot] *)
Definition stop_robot : IO unit :=
  emit (PublishTwist Twist_default).

(** ** The main loop *)

(** What [rclpy.spin_once(node, timeout_sec=0.01)] does in one iteration: no
    callback is due, the 10 Hz timer is due and [publish_commands] runs, or
    the executor raises. *)
Inductive spin : Type :=
| SpinIdle
| SpinTimer
| SpinRaise (e : exn).

(** What the environment does during one iteration: the read of the key
    raises, or the bytes [arrived] are typed before the poll and the spin
    behaves as [s]. *)
Inductive poll : Type :=
| ReadRaise (e : exn)
| Read (arrived : list ascii) (s : spin).

Definition spin_once (s : spin) (node : Node) : IO unit :=
  match s with
  | SpinIdle => mret tt
  | SpinTimer => publish_commands node
  | SpinRaise e => raise e
  end.

(** [while rclpy.ok(): ...]; the script ends when [rclpy.ok()] turns false. *)
Fixpoint loop (script : list poll) (pending : list ascii) (node : Node) : IO Node :=
  match script with
  | [] => mret node
  | ReadRaise e :: _ => emit SetRaw ;; raise e
  | Read arrived s :: script' =>
    '(key, pending') ← get_key (pending ++ arrived) ;
    match loop_body key node with
    | (node', Break) => mret node'
    | (node', Continue) =>
      spin_once s node' ;;
      loop script' pending' node'
    end
  end.

Definition teardown : IO unit :=
  stop_robot ;;
  emit RestoreTerminal ;;
  emit DestroyNode ;;
  emit Shutdown.

Definition main (script : list poll) : IO unit :=
  let node := init_node in
  try_finally
    (try_except (loop script [] node ;; mret tt) (mret tt))
    teardown.

(** ** What the properties speak of *)

(** The velocity intent, the scale factors and the pan and tilt angles of a
    node. *)
Definition intent (node : Node) : Z * Z * Z * Z :=
  (x node, y node, z node, th node).

Definition scales (node : Node) : float * float :=
  (speed node, turn node).

Definition angles (node : Node) : float * float :=
  (pan_angle node, tilt_angle node).

(** [a] lies in [[-55, 55]]; no NaN does. *)
Definition within_limits (a : float) : Prop :=
  PrimFloat.leb (-55) a = true /\ PrimFloat.leb a 55 = true.

(** The settings are those [__init__] hardcodes. *)
Definition hardcoded (node : Node) : Prop :=
  ptu_step node = 2%float
  /\ max_pan node = 55%float /\ min_pan node = (-55)%float
  /\ max_tilt node = 55%float /\ min_tilt node = (-55)%float.

(** What a PTU key with table entry [d] does to one angle, under the
    hardcoded settings. *)
Definition ptu_axis (d : Z) (a : float) : float :=
  Py.max (-55) (Py.min 55 (a + Py.float_of_int d * 2)).

(** Degrees as the program reaches them: whole numbers, clamped in [Z]. *)
Definition clamp_degrees (n : Z) : Z := Z.max (-55) (Z.min 55 n).

Definition whole_degrees (a : float) : Prop :=
  exists n : Z, -55 <= n <= 55 /\ a = Py.float_of_int n.

(** The events that release the bus resources. *)
Definition releases (ev : event) : bool :=
  match ev with
  | DestroyNode | Shutdown => true
  | _ => false
  end.

(** The settings of a node, which no key is meant to change. *)
Definition settings (node : Node) : float * float * float * float * float :=
  (ptu_step node, max_pan node, min_pan node, max_tilt node, min_tilt node).

(** An intent component is a direction: backward, none or forward. *)
Definition direction (c : Z) : Prop := c = -1 \/ c = 0 \/ c = 1.

Definition directions (v : Z * Z * Z * Z) : Prop :=
  let '(vx, vy, vz, vth) := v in
  direction vx /\ direction vy /\ direction vz /\ direction vth.

(** [0 <= a] as Python tests it: false on a NaN. *)
Definition nonneg (a : float) : Prop := PrimFloat.leb 0 a = true.

(** The same on the specification of binary64, and the finite values above
    zero. *)
Definition sf_nonneg (v : spec_float) : bool :=
  match v with
  | S754_zero _ => true
  | S754_infinity s | S754_finite s _ _ => negb s
  | S754_nan => false
  end.

Definition positive_finite (a : float) : bool :=
  match Prim2SF a with
  | S754_finite false _ _ => true
  | _ => false
  end.

(** Whether the terminal is in raw mode after the events [tr], having been
    [raw] before them. *)
Definition terminal_raw (tr : list event) (raw : bool) : bool :=
  fold_left (fun raw ev =>
               match ev with
               | SetRaw => true
               | RestoreTerminal => false
               | _ => raw
               end) tr raw.

(** What holds of the node throughout a session. *)
Definition session_invariant (node : Node) : Prop :=
  hardcoded node
  /\ within_limits (pan_angle node) /\ within_limits (tilt_angle node)
  /\ directions (intent node)
  /\ nonneg (speed node) /\ nonneg (turn node).

(** * Properties *)

(** ** The binding tables *)

(** A key bound in a table built from a literal is one of the literal's keys. *)
Ltac table_cases H :=
  apply elem_of_list_to_map_2 in H;
  repeat (apply elem_of_cons in H as [H | H]; [inversion H; subst; clear H | ]);
  [ .. | apply elem_of_nil in H; destruct H ].

Lemma move_key_not_ptu key v :
  MOVE_BINDINGS !! key = Some v -> PTU_BINDINGS !! key = None /\ key <> " ".
Proof.
  intros H. unfold MOVE_BINDINGS in H. table_cases H; split; (reflexivity || discriminate).
Qed.

Lemma speed_key_not_ptu key v :
  SPEED_BINDINGS !! key = Some v ->
  MOVE_BINDINGS !! key = None /\ PTU_BINDINGS !! key = None /\ key <> " ".
Proof.
  intros H. unfold SPEED_BINDINGS in H.
  table_cases H; repeat split; (reflexivity || discriminate).
Qed.

Lemma ptu_key_not_bound key d :
  PTU_BINDINGS !! key = Some d ->
  MOVE_BINDINGS !! key = None /\ SPEED_BINDINGS !! key = None /\ key <> " "
  /\ key <> "q" /\ key <> String ETX "".
Proof.
  intros H. unfold PTU_BINDINGS in H.
  table_cases H; repeat split; (reflexivity || discriminate).
Qed.

Lemma ptu_control_other key node :
  PTU_BINDINGS !! key = None -> key <> " " -> ptu_control key node = node.
Proof.
  intros Hp Hs. unfold ptu_control. rewrite Hp.
  apply String.eqb_neq in Hs. now rewrite Hs.
Qed.

(** ** Movement keys *)

(** C8: a key of the movement table overwrites the four intent components
    with the table's tuple and leaves the scale factors and the pan and tilt
    angles as they were; the loop goes on. *)
Theorem move_key_overwrites_intent (key : string) (v : Z * Z * Z * Z) (node : Node) :
  MOVE_BINDINGS !! key = Some v ->
  let node' := fst (loop_body key node) in
  intent node' = v /\ scales node' = scales node /\ angles node' = angles node
  /\ snd (loop_body key node) = Continue.
Proof.
  intros Hm. destruct (move_key_not_ptu _ _ Hm) as [Hp Hs].
  unfold loop_body, robot_control. rewrite Hm. cbn.
  rewrite (ptu_control_other _ _ Hp Hs).
  destruct v as [[[vx vy] vz] vth]. repeat split.
Qed.

Lemma move_key_overwrites_intent_witness :
  MOVE_BINDINGS !! "o" = Some (1, 0, 0, -1)
  /\ intent (fst (loop_body "o" init_node)) = (1, 0, 0, -1).
Proof.
  split; [ vm_compute; reflexivity | ].
  apply (move_key_overwrites_intent "o" (1, 0, 0, -1) init_node).
  vm_compute; reflexivity.
Defined.

(** ** Keys bound to nothing, and the speed keys *)

Lemma unbound_key_body key node :
  MOVE_BINDINGS !! key = None -> SPEED_BINDINGS !! key = None ->
  PTU_BINDINGS !! key = None -> key <> " " ->
  fst (loop_body key node) = set_intent node (0, 0, 0, 0).
Proof.
  intros Hm Hv Hp Hs. unfold loop_body, robot_control.
  rewrite Hm, Hv, Hp. apply String.eqb_neq in Hs as Hs'. rewrite Hs'. cbn.
  destruct (_ || _); cbn; [ reflexivity | ].
  apply ptu_control_other; assumption.
Qed.

Lemma speed_key_body key fl ft node :
  SPEED_BINDINGS !! key = Some (fl, ft) ->
  loop_body key node =
  (set_scales node (speed node * Py.to_float fl) (turn node * Py.to_float ft), Continue).
Proof.
  intros Hv. destruct (speed_key_not_ptu _ _ Hv) as (Hm & Hp & Hs).
  unfold loop_body, robot_control. rewrite Hm, Hv.
  now rewrite ptu_control_other.
Qed.

(** C2: a key that is in none of the three tables and is not the space
    zeroes the four intent components and leaves the scale factors and the
    pan and tilt angles as they were; a key of the speed table does not reach
    the stop clause, its update leaves the intent as it was. *)
Theorem stop_clause_spares_speed_keys (key : string) (node : Node) :
  let node' := fst (loop_body key node) in
  (MOVE_BINDINGS !! key = None -> SPEED_BINDINGS !! key = None ->
   PTU_BINDINGS !! key = None -> key <> " " ->
   intent node' = (0, 0, 0, 0) /\ scales node' = scales node /\ angles node' = angles node)
  /\ (is_Some (SPEED_BINDINGS !! key) -> intent node' = intent node).
Proof.
  split.
  - intros Hm Hv Hp Hs. rewrite unbound_key_body by assumption. repeat split.
  - intros [[fl ft] Hv]. now rewrite (speed_key_body _ _ _ _ Hv).
Qed.

Lemma stop_clause_spares_speed_keys_witness :
  intent (fst (loop_body "k" (set_intent init_node (1, 0, 0, -1)))) = (0, 0, 0, 0)
  /\ intent (fst (loop_body "z" (set_intent init_node (1, 0, 0, -1)))) = (1, 0, 0, -1).
Proof.
  split.
  - apply (proj1 (stop_clause_spares_speed_keys "k" (set_intent init_node (1, 0, 0, -1))));
      (reflexivity || discriminate).
  - apply (proj2 (stop_clause_spares_speed_keys "z" (set_intent init_node (1, 0, 0, -1)))).
    vm_compute. eexists. reflexivity.
Defined.

(** ** The reset key *)

(** C9: the space key puts pan and tilt at 0, whatever they were; it touches
    neither the intent nor the scale factors, and the loop goes on. *)
Theorem space_resets_ptu (node : Node) :
  loop_body " " node = (set_angles node 0 0, Continue)
  /\ pan_angle (fst (loop_body " " node)) = 0%float
  /\ tilt_angle (fst (loop_body " " node)) = 0%float.
Proof. repeat split. Qed.

(** ** No key within the poll *)

(** C3: with no byte in the terminal's queue the decoder gives the empty
    key, and the empty key zeroes the intent and leaves the scale factors and
    the angles as they were; an iteration of the main loop with no key pressed
    is the decoder, the spin and the rest of the loop run on that stopped
    node. *)
Theorem no_key_stops_robot (node : Node) (s : spin) (script : list poll) :
  get_key [] = ([SetRaw; RestoreTerminal], Done ("", []))
  /\ loop_body "" node = (set_intent node (0, 0, 0, 0), Continue)
  /\ intent (fst (loop_body "" node)) = (0, 0, 0, 0)
  /\ scales (fst (loop_body "" node)) = scales node
  /\ angles (fst (loop_body "" node)) = angles node
  /\ loop (Read [] s :: script) [] node =
     (get_key [] ;; spin_once s (set_intent node (0, 0, 0, 0)) ;;
      loop script [] (set_intent node (0, 0, 0, 0))).
Proof. repeat split. Qed.

(** ** Quitting *)

Lemma interrupt_key_breaks (node : Node) :
  loop_body (String ETX "") node = (set_intent node (0, 0, 0, 0), Break).
Proof. reflexivity. Qed.

Lemma break_ends_loop arrived pending s script node tr key pending' node' :
  get_key (pending ++ arrived) = (tr, Done (key, pending')) ->
  loop_body key node = (node', Break) ->
  loop (Read arrived s :: script) pending node = (tr, Done node').
Proof.
  intros Hk Hb. cbn [loop]. rewrite Hk. cbn. rewrite Hb. cbn.
  now rewrite app_nil_r.
Qed.

(** C1 at the key [q]: the speed table binds [q], so the quit test of the
    [else] branch is not reached; the scale factors grow by a tenth and the
    loop goes on to the next iteration, where the key [i] is read and its
    velocity published.  The interrupt byte does break the loop. *)
Theorem q_key_does_not_quit (node : Node) :
  loop_body "q" node = (set_scales node (speed node * 1.1) (turn node * 1.1), Continue)
  /\ events (main [Read ["q"%char] SpinIdle; Read ["i"%char] SpinTimer]) =
     [ SetRaw; RestoreTerminal; SetRaw; RestoreTerminal;
       PublishTwist (mkTwist (mkVector3 (1 * (0.5 * 1.1)) 0 0) (mkVector3 0 0 0));
       PublishPtu (mkPanTiltCmdDeg 30 0 0);
       PublishTwist Twist_default; RestoreTerminal; DestroyNode; Shutdown ]
  /\ events (main [Read [ETX] SpinIdle; Read ["i"%char] SpinTimer]) =
     [ SetRaw; RestoreTerminal;
       PublishTwist Twist_default; RestoreTerminal; DestroyNode; Shutdown ].
Proof. repeat split. Qed.

(** ** The publisher *)

Lemma get_key_done pending :
  exists key pending', get_key pending = ([SetRaw; RestoreTerminal], Done (key, pending')).
Proof.
  destruct pending as [| c rest]; [ now eexists _, _ | ].
  unfold get_key. destruct (Ascii.eqb c ESC); now eexists _, _.
Qed.

Lemma loop_continue arrived pending s script node key pending' node' :
  get_key (pending ++ arrived) = ([SetRaw; RestoreTerminal], Done (key, pending')) ->
  loop_body key node = (node', Continue) ->
  loop (Read arrived s :: script) pending node =
  (emit SetRaw ;; emit RestoreTerminal ;; spin_once s node' ;; loop script pending' node').
Proof.
  intros Hk Hb. cbn [loop]. rewrite Hk. cbn. rewrite Hb.
  now destruct (spin_once s node' ≫= _) as [tr r].
Qed.

(** C6: the timer callback emits two messages, both a function of the node
    as it is at the tick: a velocity message with the three linear intent
    components times the linear scale, angular x and y at 0 and the yaw intent
    times the angular scale, then a pan-tilt message with speed 30, the pan
    angle as yaw and the tilt angle as pitch.  An iteration whose spin
    dispatches the timer emits them for the node as that iteration left it. *)
Theorem publish_commands_messages (node : Node) :
  publish_commands node =
  ([ PublishTwist
       {| linear := mkVector3 (Py.float_of_int (x node) * speed node)
                              (Py.float_of_int (y node) * speed node)
                              (Py.float_of_int (z node) * speed node);
          angular := mkVector3 0 0 (Py.float_of_int (th node) * turn node) |};
     PublishPtu {| cmd_speed := 30; cmd_yaw := pan_angle node; cmd_pitch := tilt_angle node |} ],
   Done tt)
  /\ forall arrived pending script key pending' node',
       get_key (pending ++ arrived) = ([SetRaw; RestoreTerminal], Done (key, pending')) ->
       loop_body key node = (node', Continue) ->
       events (loop (Read arrived SpinTimer :: script) pending node) =
       [SetRaw; RestoreTerminal] ++ events (publish_commands node')
       ++ events (loop script pending' node').
Proof.
  split; [ reflexivity | ].
  intros arrived pending script key pending' node' Hk Hb.
  rewrite (loop_continue _ _ _ _ _ _ _ _ Hk Hb).
  cbn. destruct (loop script pending' node') as [tr r]. reflexivity.
Qed.

Lemma publish_commands_messages_witness :
  events (loop [Read ["i"%char] SpinTimer] [] init_node) =
  [ SetRaw; RestoreTerminal;
    PublishTwist (mkTwist (mkVector3 0.5 0 0) (mkVector3 0 0 0));
    PublishPtu (mkPanTiltCmdDeg 30 0 0) ].
Proof.
  apply (proj2 (publish_commands_messages init_node) ["i"%char] [] [] "i" []
               (set_intent init_node (1, 0, 0, 0)));
    reflexivity.
Defined.

(** ** Teardown *)

Lemma loop_releases_nothing script :
  forall pending node, forallb (fun ev => negb (releases ev)) (events (loop script pending node)) = true.
Proof.
  induction script as [| p script IH]; intros pending node; [ reflexivity | ].
  destruct p as [e | arrived s]; [ reflexivity | ].
  destruct (get_key_done (pending ++ arrived)) as (key & pending' & Hk).
  destruct (loop_body key node) as [node' [|]] eqn:Hb.
  - rewrite (loop_continue _ _ _ _ _ _ _ _ Hk Hb).
    specialize (IH pending' node').
    destruct (loop script pending' node') as [tr r].
    destruct s; cbn in *; assumption || reflexivity.
  - now rewrite (break_ends_loop _ _ _ _ _ _ _ _ _ Hk Hb).
Qed.

Lemma main_trace script tr r :
  loop script [] init_node = (tr, r) ->
  main script =
  ((tr ++ [ PublishTwist Twist_default; RestoreTerminal; DestroyNode; Shutdown ])%list,
   match r with
   | Raised KeyboardInterrupt => Raised KeyboardInterrupt
   | _ => Done tt
   end).
Proof.
  intros Hl. unfold main. rewrite Hl.
  destruct r as [node | [|]]; cbn; rewrite ?app_nil_r; reflexivity.
Qed.

(** C7: whichever way the main loop is left (the quit byte, [rclpy.ok()]
    turning false, an exception caught by [except Exception], a
    [KeyboardInterrupt] going through), the trace of [main] is the trace of
    the loop followed by the teardown: one velocity message with its six
    components at zero, then the terminal restored, the node destroyed and the
    bus shut down; the loop itself releases nothing. *)
Theorem teardown_on_every_exit (script : list poll) :
  exists tr r,
    loop script [] init_node = (tr, r)
    /\ events (main script) =
       tr ++ [ PublishTwist (mkTwist (mkVector3 0 0 0) (mkVector3 0 0 0));
               RestoreTerminal; DestroyNode; Shutdown ]
    /\ forallb (fun ev => negb (releases ev)) tr = true
    /\ snd (main script) =
       match r with
       | Raised KeyboardInterrupt => Raised KeyboardInterrupt
       | _ => Done tt
       end.
Proof.
  pose proof (loop_releases_nothing script [] init_node) as Hrel.
  destruct (loop script [] init_node) as [tr r] eqn:Hl.
  exists tr, r. rewrite (main_trace _ _ _ Hl). repeat split. exact Hrel.
Qed.

(** ** Pan and tilt limits *)

Lemma ltb_leb (a b : float) : PrimFloat.ltb a b = true -> PrimFloat.leb a b = true.
Proof.
  rewrite ltb_spec, leb_spec. unfold SFltb, SFleb.
  now destruct (SFcompare _ _) as [[| |] |].
Qed.

Lemma clamp_within_limits (a : float) : within_limits (Py.max (-55) (Py.min 55 a)).
Proof.
  unfold Py.max, Py.min, within_limits.
  destruct (PrimFloat.ltb a 55) eqn:Hhi.
  - destruct (PrimFloat.ltb (-55) a) eqn:Hlo.
    + split; now apply ltb_leb.
    + split; reflexivity.
  - split; reflexivity.
Qed.

Lemma hardcoded_robot_control key node :
  hardcoded (fst (robot_control key node)) <-> hardcoded node.
Proof.
  unfold robot_control.
  destruct (MOVE_BINDINGS !! key) as [[[[vx vy] vz] vth] |]; [ reflexivity | ].
  destruct (SPEED_BINDINGS !! key) as [[fl ft] |]; [ reflexivity | ].
  destruct (_ && _), (_ || _); reflexivity.
Qed.

Lemma angles_robot_control key node :
  angles (fst (robot_control key node)) = angles node.
Proof.
  unfold robot_control.
  destruct (MOVE_BINDINGS !! key) as [[[[vx vy] vz] vth] |]; [ reflexivity | ].
  destruct (SPEED_BINDINGS !! key) as [[fl ft] |]; [ reflexivity | ].
  destruct (_ && _), (_ || _); reflexivity.
Qed.

Lemma hardcoded_ptu_control key node :
  hardcoded (ptu_control key node) <-> hardcoded node.
Proof.
  unfold ptu_control.
  destruct (PTU_BINDINGS !! key) as [[dpan dtilt] |]; [ reflexivity | ].
  destruct (String.eqb key " "); reflexivity.
Qed.

Lemma ptu_control_within_limits key node :
  hardcoded node ->
  within_limits (pan_angle node) -> within_limits (tilt_angle node) ->
  within_limits (pan_angle (ptu_control key node))
  /\ within_limits (tilt_angle (ptu_control key node)).
Proof.
  intros (_ & Hxp & Hnp & Hxt & Hnt) Hp Ht. unfold ptu_control.
  destruct (PTU_BINDINGS !! key) as [[dpan dtilt] |].
  - cbn. rewrite Hxp, Hnp, Hxt, Hnt. split; apply clamp_within_limits.
  - destruct (String.eqb key " "); [ | now split ].
    cbn. split; split; reflexivity.
Qed.

Lemma hardcoded_loop_body key node :
  hardcoded (fst (loop_body key node)) <-> hardcoded node.
Proof.
  unfold loop_body. rewrite <- (hardcoded_robot_control key node).
  destruct (robot_control key node) as [node' [|]]; cbn; [ | reflexivity ].
  apply hardcoded_ptu_control.
Qed.

Lemma loop_body_invariant key node :
  hardcoded node ->
  within_limits (pan_angle node) -> within_limits (tilt_angle node) ->
  hardcoded (fst (loop_body key node))
  /\ within_limits (pan_angle (fst (loop_body key node)))
  /\ within_limits (tilt_angle (fst (loop_body key node))).
Proof.
  intros Hh Hp Ht. unfold loop_body.
  pose proof (hardcoded_robot_control key node) as Hh'.
  pose proof (angles_robot_control key node) as Ha.
  destruct (robot_control key node) as [node' [|]]; cbn in *.
  - injection Ha as Hap Hat. rewrite <- Hap in Hp. rewrite <- Hat in Ht.
    apply Hh' in Hh. split; [ now apply hardcoded_ptu_control | ].
    now apply ptu_control_within_limits.
  - injection Ha as -> ->. tauto.
Qed.

Lemma run_keys_invariant keys : forall node,
  hardcoded node ->
  within_limits (pan_angle node) -> within_limits (tilt_angle node) ->
  hardcoded (run_keys keys node)
  /\ within_limits (pan_angle (run_keys keys node))
  /\ within_limits (tilt_angle (run_keys keys node)).
Proof.
  induction keys as [| key keys IH]; intros node Hh Hp Ht; [ tauto | ].
  destruct (loop_body_invariant key node Hh Hp Ht) as (Hh' & Hp' & Ht').
  cbn. destruct (loop_body key node) as [node' [|]]; cbn in *; [ now apply IH | tauto ].
Qed.

Lemma ptu_control_axes key dpan dtilt node :
  PTU_BINDINGS !! key = Some (dpan, dtilt) -> hardcoded node ->
  angles (ptu_control key node) =
  (ptu_axis dpan (pan_angle node), ptu_axis dtilt (tilt_angle node)).
Proof.
  intros Hp (Hs & Hxp & Hnp & Hxt & Hnt). unfold ptu_control. rewrite Hp.
  unfold angles; cbn. now rewrite Hs, Hxp, Hnp, Hxt, Hnt.
Qed.

Lemma right_arrow_body node :
  loop_body RIGHT_ARROW node = (ptu_control RIGHT_ARROW node, Continue).
Proof. reflexivity. Qed.

Lemma right_arrow_pan node :
  hardcoded node -> pan_angle (ptu_control RIGHT_ARROW node) = ptu_axis (-1) (pan_angle node).
Proof.
  intros Hh.
  pose proof (ptu_control_axes RIGHT_ARROW (-1) 0 node eq_refl Hh) as Ha.
  now injection Ha.
Qed.

Lemma run_right_arrows n : forall node,
  hardcoded node ->
  pan_angle (run_keys (repeat RIGHT_ARROW n) node) = Nat.iter n (ptu_axis (-1)) (pan_angle node).
Proof.
  induction n as [| n IH]; intros node Hh; [ reflexivity | ].
  rewrite Nat.iter_succ_r. cbn [repeat run_keys].
  rewrite right_arrow_body.
  pose proof (proj2 (hardcoded_loop_body RIGHT_ARROW node) Hh) as Hh'.
  rewrite right_arrow_body in Hh'. cbn [fst] in Hh'.
  rewrite (IH _ Hh'). f_equal. now apply right_arrow_pan.
Qed.

(** C5: from a node with the hardcoded settings and both angles in
    [[-55, 55]], each update step, and so each run of any keys, leaves pan and
    tilt in [[-55, 55]]; forty presses of the right arrow (pan decrease) from
    pan 0 leave pan at -55 exactly. *)
Theorem ptu_angles_within_limits (node : Node) (key : string) (keys : list string) :
  hardcoded node ->
  within_limits (pan_angle node) -> within_limits (tilt_angle node) ->
  (within_limits (pan_angle (fst (loop_body key node)))
   /\ within_limits (tilt_angle (fst (loop_body key node))))
  /\ (within_limits (pan_angle (run_keys keys node))
      /\ within_limits (tilt_angle (run_keys keys node)))
  /\ (pan_angle node = 0%float ->
      pan_angle (run_keys (repeat RIGHT_ARROW 40) node) = (-55)%float).
Proof.
  intros Hh Hp Ht. split; [ | split ].
  - apply loop_body_invariant; assumption.
  - apply run_keys_invariant; assumption.
  - intros H0. rewrite run_right_arrows, H0 by assumption.
    vm_compute. reflexivity.
Qed.

Lemma init_node_invariant :
  hardcoded init_node
  /\ within_limits (pan_angle init_node) /\ within_limits (tilt_angle init_node).
Proof. repeat split. Qed.

Lemma ptu_angles_within_limits_witness :
  within_limits (pan_angle (run_keys [LEFT_ARROW; "i"; UP_ARROW] init_node))
  /\ pan_angle (run_keys (repeat RIGHT_ARROW 40) init_node) = (-55)%float.
Proof.
  destruct init_node_invariant as (Hh & Hp & Ht).
  destruct (ptu_angles_within_limits init_node "i" [LEFT_ARROW; "i"; UP_ARROW] Hh Hp Ht)
    as (_ & [Hp' _] & H40).
  split; [ exact Hp' | apply H40; reflexivity ].
Defined.

(** The clamp comes before any publish: every pan-tilt message [main] sends
    carries angles within the limits. *)
Lemma loop_publishes_within_limits script : forall pending node msg,
  hardcoded node ->
  within_limits (pan_angle node) -> within_limits (tilt_angle node) ->
  In (PublishPtu msg) (events (loop script pending node)) ->
  within_limits (cmd_yaw msg) /\ within_limits (cmd_pitch msg).
Proof.
  induction script as [| p script IH]; intros pending node msg Hh Hp Ht Hin;
    [ destruct Hin | ].
  destruct p as [e | arrived s]; [ cbn in Hin; intuition discriminate | ].
  destruct (get_key_done (pending ++ arrived)) as (key & pending' & Hk).
  destruct (loop_body_invariant key node Hh Hp Ht) as (Hh' & Hp' & Ht').
  destruct (loop_body key node) as [node' [|]] eqn:Hb; cbn [fst] in *.
  - rewrite (loop_continue _ _ _ _ _ _ _ _ Hk Hb) in Hin.
    specialize (IH pending' node' msg Hh' Hp' Ht').
    destruct (loop script pending' node') as [tr r].
    destruct s; cbn in Hin, IH.
    + destruct Hin as [Hin | [Hin | Hin]]; try discriminate. now apply IH.
    + destruct Hin as [Hin | [Hin | [Hin | [Hin | Hin]]]]; try discriminate.
      * injection Hin as <-. now split.
      * now apply IH.
    + intuition discriminate.
  - rewrite (break_ends_loop _ _ _ _ _ _ _ _ _ Hk Hb) in Hin.
    cbn in Hin. intuition discriminate.
Qed.

Lemma main_publishes_within_limits script msg :
  In (PublishPtu msg) (events (main script)) ->
  within_limits (cmd_yaw msg) /\ within_limits (cmd_pitch msg).
Proof.
  destruct (loop script [] init_node) as [tr r] eqn:Hl.
  rewrite (main_trace _ _ _ Hl). cbn [events fst].
  rewrite in_app_iff. intros [Hin | Hin].
  - destruct init_node_invariant as (Hh & Hp & Ht).
    apply (loop_publishes_within_limits script [] init_node msg Hh Hp Ht).
    now rewrite Hl.
  - cbn in Hin. intuition discriminate.
Qed.

(** ** Speed keys *)

Lemma run_speed_key key fl ft n : forall node,
  SPEED_BINDINGS !! key = Some (fl, ft) ->
  scales (run_keys (repeat key n) node) =
  (Nat.iter n (fun s => s * Py.to_float fl)%float (speed node),
   Nat.iter n (fun t => t * Py.to_float ft)%float (turn node)).
Proof.
  induction n as [| n IH]; intros node Hv; [ reflexivity | ].
  rewrite !Nat.iter_succ_r. cbn [repeat run_keys].
  rewrite (speed_key_body _ _ _ _ Hv). now rewrite IH.
Qed.

(** C4 as stated fails at its own example: two presses of [q] from scales
    (1.0, 1.0) leave scales that Python's [==] tells apart from 1.21. *)
Lemma two_q_presses_miss_1_21 :
  let node := run_keys ["q"; "q"] (set_scales init_node 1 1) in
  SPEED_BINDINGS !! "q" = Some (Py.Float 1.1, Py.Float 1.1)
  /\ PrimFloat.eqb (speed node) 1.21 = false
  /\ PrimFloat.eqb (turn node) 1.21 = false.
Proof. repeat split. Qed.

(** C4, amended: a key of the speed table multiplies the linear scale by the
    table's linear factor and the angular scale by its angular factor, in
    binary64; [n] presses of the same key multiply [n] times; two presses of
    [q] from scales (1.0, 1.0) yield 1.1 * 1.1 for both, which is
    1.2100000000000002, the binary64 value next above 1.21, and not the 1.2
    that adding a tenth twice would give. *)
Theorem speed_key_multiplies_scales
    (key : string) (fl ft : Py.num) (node : Node) (n : nat) :
  SPEED_BINDINGS !! key = Some (fl, ft) ->
  scales (fst (loop_body key node)) =
    ((speed node * Py.to_float fl)%float, (turn node * Py.to_float ft)%float)
  /\ scales (run_keys (repeat key n) node) =
     (Nat.iter n (fun s => s * Py.to_float fl)%float (speed node),
      Nat.iter n (fun t => t * Py.to_float ft)%float (turn node))
  /\ scales (run_keys ["q"; "q"] (set_scales node 1 1)) =
     (1.2100000000000002, 1.2100000000000002)%float
  /\ 1.2100000000000002%float = next_up 1.21
  /\ PrimFloat.ltb (1 + 0.1 + 0.1) 1.2100000000000002 = true.
Proof.
  intros Hv. split; [ | split ].
  - now rewrite (speed_key_body _ _ _ _ Hv).
  - now apply run_speed_key.
  - repeat split.
Qed.

Lemma speed_key_multiplies_scales_witness :
  scales (fst (loop_body "w" init_node)) = ((0.5 * 1.1)%float, (1 * Py.float_of_int 1)%float)
  /\ scales (run_keys (repeat "w" 3) init_node) =
     ((0.5 * 1.1 * 1.1 * 1.1)%float, 1%float).
Proof.
  destruct (speed_key_multiplies_scales "w" (Py.Float 1.1) (Py.Int 1) init_node 3)
    as (H1 & H3 & _); [ reflexivity | ].
  split; [ exact H1 | exact H3 ].
Defined.

(** ** Arrow keys *)

Lemma every_degree (P : Z -> bool) :
  forallb P (seqZ (-55) 111) = true -> forall n, -55 <= n <= 55 -> P n = true.
Proof.
  intros Hall n Hn. rewrite forallb_forall in Hall. apply Hall.
  apply list_elem_of_In, elem_of_seqZ. lia.
Qed.

Lemma ptu_delta key dpan dtilt :
  PTU_BINDINGS !! key = Some (dpan, dtilt) ->
  (dpan = 0 /\ (dtilt = -1 \/ dtilt = 1)) \/ ((dpan = -1 \/ dpan = 1) /\ dtilt = 0).
Proof. intros H. unfold PTU_BINDINGS in H. table_cases H; lia. Qed.

(** On whole degrees the binary64 step and clamp are exact. *)
Lemma ptu_axis_whole_degrees d n :
  -1 <= d <= 1 -> -55 <= n <= 55 ->
  ptu_axis d (Py.float_of_int n) = Py.float_of_int (clamp_degrees (n + d * 2)).
Proof.
  intros Hd Hn. apply Leibniz.eqb_spec.
  revert n Hn.
  assert (d = -1 \/ d = 0 \/ d = 1) as [-> | [-> | ->]] by lia;
    apply (every_degree (fun n =>
      Leibniz.eqb (ptu_axis _ (Py.float_of_int n))
                  (Py.float_of_int (clamp_degrees (n + _ * 2)))));
    vm_compute; reflexivity.
Qed.

Lemma ptu_axis_at_most_step d n :
  -1 <= d <= 1 -> -55 <= n <= 55 ->
  PrimFloat.leb (abs (ptu_axis d (Py.float_of_int n) - Py.float_of_int n)) 2 = true.
Proof.
  intros Hd Hn. revert n Hn.
  assert (d = -1 \/ d = 0 \/ d = 1) as [-> | [-> | ->]] by lia;
    apply (every_degree (fun n =>
      PrimFloat.leb (abs (ptu_axis _ (Py.float_of_int n) - Py.float_of_int n)) 2));
    vm_compute; reflexivity.
Qed.

Lemma ptu_key_body key d node :
  PTU_BINDINGS !! key = Some d ->
  loop_body key node = (ptu_control key node, Continue).
Proof.
  intros Hp. destruct (ptu_key_not_bound _ _ Hp) as (Hm & Hv & Hs & Hq & Hc).
  unfold loop_body, robot_control. rewrite Hm, Hv, Hp.
  apply String.eqb_neq in Hq, Hc. now rewrite Hq, Hc.
Qed.

Lemma arrow_key_angles key dpan dtilt node p t :
  PTU_BINDINGS !! key = Some (dpan, dtilt) ->
  hardcoded node ->
  -55 <= p <= 55 -> pan_angle node = Py.float_of_int p ->
  -55 <= t <= 55 -> tilt_angle node = Py.float_of_int t ->
  pan_angle (fst (loop_body key node)) = Py.float_of_int (clamp_degrees (p + dpan * 2))
  /\ tilt_angle (fst (loop_body key node)) = Py.float_of_int (clamp_degrees (t + dtilt * 2)).
Proof.
  intros Hk Hh Hp Hpan Ht Htilt.
  rewrite (ptu_key_body _ _ node Hk). cbn [fst].
  pose proof (ptu_control_axes _ _ _ _ Hk Hh) as Ha.
  apply pair_equal_spec in Ha as [-> ->]. rewrite Hpan, Htilt.
  assert (-1 <= dpan <= 1 /\ -1 <= dtilt <= 1) as [Hdp Hdt]
    by (destruct (ptu_delta _ _ _ Hk); lia).
  now rewrite !ptu_axis_whole_degrees.
Qed.

(** C10 as stated fails where the clamp holds an angle at its limit: after
    28 presses of the left arrow pan is 55, and one more press changes neither
    pan nor tilt. *)
Lemma left_arrow_at_limit_changes_nothing :
  let node := run_keys (repeat LEFT_ARROW 28) init_node in
  PTU_BINDINGS !! LEFT_ARROW = Some (1, 0)
  /\ angles node = (55, 0)%float
  /\ angles (fst (loop_body LEFT_ARROW node)) = angles node.
Proof. vm_compute. repeat split. Qed.

(** C10, amended: for a key of the arrow table, on a node with the hardcoded
    settings whose angles are whole degrees [p] and [t] in [[-55, 55]] (as
    every angle the program reaches is), one update step leaves the intent
    and the scale factors as they were and sets pan to [p + 2 * dpan] and tilt
    to [t + 2 * dtilt], each clamped into [[-55, 55]].  One of the two deltas
    is 0, so that angle keeps its value; the other moves by the 2-degree step,
    or by less, down to not at all, when the clamp stops it at a limit. *)
Theorem arrow_key_moves_one_angle
    (key : string) (dpan dtilt : Z) (node : Node) (p t : Z) :
  PTU_BINDINGS !! key = Some (dpan, dtilt) ->
  hardcoded node ->
  -55 <= p <= 55 -> pan_angle node = Py.float_of_int p ->
  -55 <= t <= 55 -> tilt_angle node = Py.float_of_int t ->
  let node' := fst (loop_body key node) in
  intent node' = intent node /\ scales node' = scales node
  /\ pan_angle node' = Py.float_of_int (clamp_degrees (p + dpan * 2))
  /\ tilt_angle node' = Py.float_of_int (clamp_degrees (t + dtilt * 2))
  /\ (pan_angle node' = pan_angle node \/ tilt_angle node' = tilt_angle node)
  /\ Z.abs (clamp_degrees (p + dpan * 2) - p) <= 2
  /\ Z.abs (clamp_degrees (t + dtilt * 2) - t) <= 2
  /\ PrimFloat.leb (abs (pan_angle node' - pan_angle node)) 2 = true
  /\ PrimFloat.leb (abs (tilt_angle node' - tilt_angle node)) 2 = true.
Proof.
  intros Hk Hh Hp Hpan Ht Htilt node'. subst node'.
  destruct (arrow_key_angles _ _ _ _ _ _ Hk Hh Hp Hpan Ht Htilt) as [Hpan' Htilt'].
  assert (-1 <= dpan <= 1 /\ -1 <= dtilt <= 1) as [Hdp Hdt]
    by (destruct (ptu_delta _ _ _ Hk); lia).
  rewrite Hpan', Htilt', Hpan, Htilt.
  rewrite (ptu_key_body _ _ node Hk). cbn [fst].
  split; [ | split ].
  - unfold ptu_control. rewrite Hk. reflexivity.
  - unfold ptu_control. rewrite Hk. reflexivity.
  - repeat split.
    + destruct (ptu_delta _ _ _ Hk) as [[-> _] | [_ ->]]; [ left | right ];
        f_equal; unfold clamp_degrees; lia.
    + unfold clamp_degrees; lia.
    + unfold clamp_degrees; lia.
    + rewrite <- ptu_axis_whole_degrees by assumption.
      now apply ptu_axis_at_most_step.
    + rewrite <- ptu_axis_whole_degrees by assumption.
      now apply ptu_axis_at_most_step.
Qed.

Lemma arrow_key_moves_one_angle_witness :
  let node := run_keys (repeat UP_ARROW 27) init_node in
  angles node = (0, -54)%float
  /\ angles (fst (loop_body UP_ARROW node)) = (0, -55)%float.
Proof.
  split; [ vm_compute; reflexivity | ].
  destruct (arrow_key_moves_one_angle UP_ARROW 0 (-1)
              (run_keys (repeat UP_ARROW 27) init_node) 0 (-54))
    as (_ & _ & Hpan & Htilt & _);
    [ reflexivity | vm_compute; repeat split | lia | vm_compute; reflexivity
    | lia | vm_compute; reflexivity | ].
  unfold angles. rewrite Hpan, Htilt. vm_compute. reflexivity.
Defined.

(** Every node the program reaches has whole degrees within the limits. *)
Lemma loop_body_whole_degrees key node :
  hardcoded node -> whole_degrees (pan_angle node) -> whole_degrees (tilt_angle node) ->
  whole_degrees (pan_angle (fst (loop_body key node)))
  /\ whole_degrees (tilt_angle (fst (loop_body key node))).
Proof.
  intros Hh (p & Hp & Hpan) (t & Ht & Htilt).
  destruct (PTU_BINDINGS !! key) as [[dpan dtilt] |] eqn:Hk.
  - destruct (arrow_key_angles _ _ _ _ _ _ Hk Hh Hp Hpan Ht Htilt) as [Hpan' Htilt'].
    split; eexists; (split; [ | eassumption ]); unfold clamp_degrees; lia.
  - unfold loop_body. pose proof (angles_robot_control key node) as Ha.
    destruct (robot_control key node) as [node' [|]]; cbn [fst] in *;
      injection Ha as Hap Hat.
    + unfold ptu_control. rewrite Hk. destruct (String.eqb key " "); cbn.
      * split; exists 0; (split; [ lia | reflexivity ]).
      * rewrite Hap, Hat. split; eexists; eauto.
    + rewrite Hap, Hat. split; eexists; eauto.
Qed.

Lemma run_keys_whole_degrees keys : forall node,
  hardcoded node -> whole_degrees (pan_angle node) -> whole_degrees (tilt_angle node) ->
  whole_degrees (pan_angle (run_keys keys node))
  /\ whole_degrees (tilt_angle (run_keys keys node)).
Proof.
  induction keys as [| key keys IH]; intros node Hh Hp Ht; [ tauto | ].
  destruct (loop_body_whole_degrees key node Hh Hp Ht) as (Hp' & Ht').
  pose proof (proj2 (hardcoded_loop_body key node) Hh) as Hh'.
  cbn. destruct (loop_body key node) as [node' [|]]; cbn in *; [ now apply IH | tauto ].
Qed.

Lemma reachable_whole_degrees keys :
  whole_degrees (pan_angle (run_keys keys init_node))
  /\ whole_degrees (tilt_angle (run_keys keys init_node)).
Proof.
  apply run_keys_whole_degrees; [ apply init_node_invariant | | ];
    exists 0; (split; [ lia | reflexivity ]).
Qed.

(** * Further properties of the code *)

(** ** The key decoder *)







(** ** Dispatch *)

(** X4: no key is bound by two tables, and none of them binds the space,
    the empty key or the interrupt byte: which branch a key takes does not
    depend on the order of the tests, but for the quit test on [q]. *)
Theorem tables_are_disjoint (key : string) :
  (is_Some (MOVE_BINDINGS !! key) ->
   SPEED_BINDINGS !! key = None /\ PTU_BINDINGS !! key = None)
  /\ (is_Some (SPEED_BINDINGS !! key) ->
      MOVE_BINDINGS !! key = None /\ PTU_BINDINGS !! key = None)
  /\ (is_Some (PTU_BINDINGS !! key) ->
      MOVE_BINDINGS !! key = None /\ SPEED_BINDINGS !! key = None)
  /\ (key = " " \/ key = "" \/ key = String ETX "" ->
      MOVE_BINDINGS !! key = None /\ SPEED_BINDINGS !! key = None
      /\ PTU_BINDINGS !! key = None).
Proof.
  repeat split.
  - destruct H as [v H]. unfold MOVE_BINDINGS in H. table_cases H; reflexivity.
  - destruct H as [v H]. now apply move_key_not_ptu in H.
  - destruct H as [v H]. now apply speed_key_not_ptu in H.
  - destruct H as [v H]. now apply speed_key_not_ptu in H.
  - destruct H as [v H]. now apply ptu_key_not_bound in H.
  - destruct H as [v H]. now apply ptu_key_not_bound in H.
  - destruct H as [-> | [-> | ->]]; reflexivity.
  - destruct H as [-> | [-> | ->]]; reflexivity.
  - destruct H as [-> | [-> | ->]]; reflexivity.
Qed.

Lemma tables_are_disjoint_witness :
  SPEED_BINDINGS !! "q" = Some (Py.Float 1.1, Py.Float 1.1)
  /\ MOVE_BINDINGS !! "q" = None /\ PTU_BINDINGS !! "q" = None.
Proof.
  split; [ reflexivity | ].
  apply (proj1 (proj2 (tables_are_disjoint "q"))). eexists. reflexivity.
Defined.

(** X5: the interrupt byte ends the loop before the spin: the iteration
    that decodes it zeroes the intent, publishes nothing, and nothing of the
    rest of the script is run. *)
Theorem interrupt_skips_spin arrived pending s script node pending' :
  get_key (pending ++ arrived) =
    ([SetRaw; RestoreTerminal], Done (String ETX "", pending')) ->
  loop (Read arrived s :: script) pending node =
  ([SetRaw; RestoreTerminal], Done (set_intent node (0, 0, 0, 0))).
Proof.
  intros Hk. apply (break_ends_loop _ _ _ _ _ _ _ _ _ Hk). apply interrupt_key_breaks.
Qed.

Lemma interrupt_skips_spin_witness :
  loop [Read [ETX] SpinTimer; Read ["i"%char] SpinTimer] []
       (set_intent init_node (1, 0, 0, 0)) =
  ([SetRaw; RestoreTerminal], Done init_node).
Proof.
  apply (interrupt_skips_spin [ETX] [] SpinTimer [Read ["i"%char] SpinTimer]
           (set_intent init_node (1, 0, 0, 0)) []).
  reflexivity.
Defined.

(** ** What a key leaves alone *)

Lemma scales_frame key node :
  SPEED_BINDINGS !! key = None ->
  scales (fst (loop_body key node)) = scales node.
Proof.
  intros Hv. unfold loop_body, robot_control. rewrite Hv.
  destruct (MOVE_BINDINGS !! key) as [[[[vx vy] vz] vth] |]; cbn.
  - unfold ptu_control. destruct (PTU_BINDINGS !! key) as [[dp dt] |]; [ reflexivity | ].
    destruct (String.eqb key " "); reflexivity.
  - destruct (_ && _), (_ || _); cbn; try reflexivity;
      unfold ptu_control; destruct (PTU_BINDINGS !! key) as [[dp dt] |];
      try reflexivity; destruct (String.eqb key " "); reflexivity.
Qed.

(** X6: only the keys of the speed table change the scale factors. *)
Theorem only_speed_keys_change_scales (key : string) (node : Node) :
  SPEED_BINDINGS !! key = None ->
  scales (fst (loop_body key node)) = scales node.
Proof. apply scales_frame. Qed.

Lemma only_speed_keys_change_scales_witness :
  scales (fst (loop_body LEFT_ARROW init_node)) = (0.5, 1)%float.
Proof. apply (only_speed_keys_change_scales LEFT_ARROW init_node). reflexivity. Defined.

(** X7: only the arrow keys and the space change the pan and tilt angles. *)
Theorem only_ptu_keys_change_angles (key : string) (node : Node) :
  PTU_BINDINGS !! key = None -> key <> " " ->
  angles (fst (loop_body key node)) = angles node.
Proof.
  intros Hp Hs. unfold loop_body.
  pose proof (angles_robot_control key node) as Ha.
  destruct (robot_control key node) as [node' [|]]; cbn [fst] in *; [ | exact Ha ].
  now rewrite ptu_control_other.
Qed.

Lemma only_ptu_keys_change_angles_witness :
  angles (fst (loop_body "q" (set_angles init_node 12 (-4)))) = (12, -4)%float.
Proof.
  apply (only_ptu_keys_change_angles "q" (set_angles init_node 12 (-4)));
    [ reflexivity | discriminate ].
Defined.

(** X8: the speed keys, the arrow keys and the space leave the intent as
    it is, on every node: none of them stops a moving robot. *)
Theorem moving_robot_keeps_moving (key : string) (node : Node) :
  is_Some (SPEED_BINDINGS !! key) \/ is_Some (PTU_BINDINGS !! key) \/ key = " " ->
  intent (fst (loop_body key node)) = intent node
  /\ snd (loop_body key node) = Continue.
Proof.
  intros [[[fl ft] H] | [[[dp dt] H] | ->]].
  - now rewrite (speed_key_body _ _ _ _ H).
  - rewrite (ptu_key_body _ _ _ H). unfold ptu_control. now rewrite H.
  - split; reflexivity.
Qed.

Lemma moving_robot_keeps_moving_witness :
  intent (fst (loop_body " " (set_intent init_node (1, 0, 0, -1)))) = (1, 0, 0, -1).
Proof.
  apply (moving_robot_keeps_moving " " (set_intent init_node (1, 0, 0, -1))).
  right; right; reflexivity.
Defined.

(** ** Invariants of a session *)

Lemma settings_robot_control key node :
  settings (fst (robot_control key node)) = settings node.
Proof.
  unfold robot_control.
  destruct (MOVE_BINDINGS !! key) as [[[[vx vy] vz] vth] |]; [ reflexivity | ].
  destruct (SPEED_BINDINGS !! key) as [[fl ft] |]; [ reflexivity | ].
  destruct (_ && _), (_ || _); reflexivity.
Qed.

Lemma settings_ptu_control key node :
  settings (ptu_control key node) = settings node.
Proof.
  unfold ptu_control.
  destruct (PTU_BINDINGS !! key) as [[dpan dtilt] |]; [ reflexivity | ].
  destruct (String.eqb key " "); reflexivity.
Qed.

Lemma settings_loop_body key node :
  settings (fst (loop_body key node)) = settings node.
Proof.
  unfold loop_body. rewrite <- (settings_robot_control key node).
  destruct (robot_control key node) as [node' [|]]; cbn [fst]; [ | reflexivity ].
  apply settings_ptu_control.
Qed.

(** X9: no run of keys changes the step or the four limits the node was
    built with. *)
Theorem settings_never_change (keys : list string) (node : Node) :
  settings (run_keys keys node) = settings node.
Proof.
  revert node. induction keys as [| key keys IH]; intros node; [ reflexivity | ].
  cbn [run_keys]. pose proof (settings_loop_body key node) as Hs.
  destruct (loop_body key node) as [node' [|]]; cbn [fst] in Hs;
    [ now rewrite IH | exact Hs ].
Qed.

Lemma intent_ptu_control key node :
  intent (ptu_control key node) = intent node.
Proof.
  unfold ptu_control.
  destruct (PTU_BINDINGS !! key) as [[dpan dtilt] |]; [ reflexivity | ].
  destruct (String.eqb key " "); reflexivity.
Qed.

Lemma move_table_directions key v :
  MOVE_BINDINGS !! key = Some v -> directions v.
Proof.
  intros H. unfold MOVE_BINDINGS in H.
  table_cases H; unfold directions, direction; lia.
Qed.

Lemma directions_loop_body key node :
  directions (intent node) -> directions (intent (fst (loop_body key node))).
Proof.
  intros Hd. unfold loop_body, robot_control.
  destruct (MOVE_BINDINGS !! key) as [v |] eqn:Hm.
  - cbn [fst]. rewrite intent_ptu_control.
    apply move_table_directions in Hm. now destruct v as [[[vx vy] vz] vth].
  - destruct (SPEED_BINDINGS !! key) as [[fl ft] |].
    + cbn [fst]. now rewrite intent_ptu_control.
    + assert (directions (0, 0, 0, 0)) as H0 by (unfold directions, direction; lia).
      destruct (_ && _), (_ || _); cbn [fst]; rewrite ?intent_ptu_control; assumption.
Qed.

(** X10: each intent component is -1, 0 or 1 after any run of keys, if it
    was before; it is on the node [__init__] builds. *)
Theorem intent_stays_direction (keys : list string) (node : Node) :
  directions (intent node) -> directions (intent (run_keys keys node)).
Proof.
  revert node. induction keys as [| key keys IH]; intros node Hd; [ exact Hd | ].
  cbn [run_keys]. pose proof (directions_loop_body key node Hd) as Hd'.
  destruct (loop_body key node) as [node' [|]]; cbn [fst] in Hd';
    [ now apply IH | exact Hd' ].
Qed.

Lemma intent_stays_direction_witness :
  directions (intent (run_keys ["i"; "q"; LEFT_ARROW; "M"; "k"] init_node)).
Proof.
  apply (intent_stays_direction ["i"; "q"; LEFT_ARROW; "M"; "k"] init_node).
  unfold directions, direction; cbn; lia.
Defined.

(** *** The scale factors keep their sign *)

Lemma shr_1_nonneg mrs : 0 <= shr_m mrs -> 0 <= shr_m (shr_1 mrs).
Proof.
  destruct mrs as [m r s]. cbn [shr_m]. intros Hm.
  destruct m as [| [p | p |] | p]; cbn; lia.
Qed.

Lemma iter_shr_1_nonneg p : forall mrs,
  0 <= shr_m mrs -> 0 <= shr_m (SpecFloat.iter_pos shr_1 p mrs).
Proof.
  induction p as [p IH | p IH |]; intros mrs Hm; cbn [SpecFloat.iter_pos].
  - apply IH, IH, shr_1_nonneg, Hm.
  - apply IH, IH, Hm.
  - apply shr_1_nonneg, Hm.
Qed.

Lemma shr_fexp_nonneg prec emax m e l :
  0 <= m -> 0 <= shr_m (fst (shr_fexp prec emax m e l)).
Proof.
  intros Hm. unfold shr_fexp, shr.
  assert (0 <= shr_m (shr_record_of_loc m l)) as H0 by (now destruct l as [| []]).
  destruct (_ - e) as [| p | p]; cbn [fst]; [ assumption | | assumption ].
  now apply iter_shr_1_nonneg.
Qed.

Lemma round_nearest_even_nonneg m l : 0 <= m -> 0 <= round_nearest_even m l.
Proof.
  intros Hm. destruct l as [| []]; cbn; try assumption; [ | lia ].
  destruct (Z.even m); lia.
Qed.

Lemma binary_round_aux_nonneg prec emax m e l :
  0 <= m -> sf_nonneg (binary_round_aux prec emax false m e l) = true.
Proof.
  intros Hm. unfold binary_round_aux.
  pose proof (shr_fexp_nonneg prec emax m e l Hm) as H1.
  destruct (shr_fexp prec emax m e l) as [mrs' e']. cbn [fst] in H1.
  pose proof (shr_fexp_nonneg prec emax _ e' loc_Exact
                (round_nearest_even_nonneg _ (loc_of_shr_record mrs') H1)) as H2.
  destruct (shr_fexp prec emax _ e' loc_Exact) as [mrs'' e'']. cbn [fst] in H2.
  destruct (shr_m mrs'') as [| p | p]; [ reflexivity | | lia ].
  now destruct (Z.leb e'' _).
Qed.

Lemma nonneg_spec a : nonneg a <-> sf_nonneg (Prim2SF a) = true.
Proof.
  unfold nonneg. rewrite leb_spec.
  change (Prim2SF 0) with (S754_zero false).
  destruct (Prim2SF a) as [s | s | | s m e]; cbn; try destruct s; cbn; intuition congruence.
Qed.

Lemma mul_nonneg a f :
  nonneg a -> positive_finite f = true -> nonneg (a * f).
Proof.
  rewrite !nonneg_spec, mul_spec. unfold positive_finite, SF64mul.
  destruct (Prim2SF f) as [| | | [|] mf ef]; try discriminate. intros Ha _.
  destruct (Prim2SF a) as [sa | sa | | sa ma ea]; try discriminate;
    destruct sa; try discriminate; try reflexivity.
  cbn [SFmul xorb]. now apply binary_round_aux_nonneg.
Qed.

Lemma speed_table_positive key fl ft :
  SPEED_BINDINGS !! key = Some (fl, ft) ->
  positive_finite (Py.to_float fl) = true /\ positive_finite (Py.to_float ft) = true.
Proof.
  intros H. unfold SPEED_BINDINGS in H.
  table_cases H; split; vm_compute; reflexivity.
Qed.

Lemma nonneg_scales_loop_body key node :
  nonneg (speed node) -> nonneg (turn node) ->
  nonneg (speed (fst (loop_body key node))) /\ nonneg (turn (fst (loop_body key node))).
Proof.
  intros Hs Ht. destruct (SPEED_BINDINGS !! key) as [[fl ft] |] eqn:Hv.
  - rewrite (speed_key_body _ _ _ _ Hv). cbn [fst speed turn set_scales].
    destruct (speed_table_positive _ _ _ Hv) as [Hfl Hft].
    split; now apply mul_nonneg.
  - pose proof (scales_frame key node Hv) as Hf.
    apply pair_equal_spec in Hf as [-> ->]. now split.
Qed.

(** X11: a scale factor that is neither negative nor a NaN stays so after
    any run of keys: the speed keys multiply by 1.1, 0.9 or 1, and nothing
    else touches the scales.  A movement key can thus never drive the robot
    against its direction. *)
Theorem scales_never_negative (keys : list string) (node : Node) :
  nonneg (speed node) -> nonneg (turn node) ->
  nonneg (speed (run_keys keys node)) /\ nonneg (turn (run_keys keys node)).
Proof.
  revert node. induction keys as [| key keys IH]; intros node Hs Ht; [ now split | ].
  cbn [run_keys]. destruct (nonneg_scales_loop_body key node Hs Ht) as [Hs' Ht'].
  destruct (loop_body key node) as [node' [|]]; cbn [fst] in *;
    [ now apply IH | now split ].
Qed.

Lemma scales_never_negative_witness :
  nonneg (speed (run_keys (repeat "z" 40) init_node))
  /\ nonneg (turn (run_keys (repeat "q" 40) init_node)).
Proof.
  split.
  - apply (scales_never_negative (repeat "z" 40) init_node); reflexivity.
  - apply (scales_never_negative (repeat "q" 40) init_node); reflexivity.
Defined.

(** X12: an arrow key brings both angles into [[-55, 55]] whatever they
    were before, out of range, infinite or NaN: the clamp, on a node with the
    hardcoded limits, needs no assumption on the angle it is given. *)
Theorem arrow_key_restores_limits (key : string) (d : Z * Z) (node : Node) :
  PTU_BINDINGS !! key = Some d -> hardcoded node ->
  within_limits (pan_angle (fst (loop_body key node)))
  /\ within_limits (tilt_angle (fst (loop_body key node))).
Proof.
  intros Hk (_ & Hxp & Hnp & Hxt & Hnt).
  rewrite (ptu_key_body _ _ node Hk). cbn [fst]. unfold ptu_control. rewrite Hk.
  destruct d as [dpan dtilt]. cbn. rewrite Hxp, Hnp, Hxt, Hnt.
  split; apply clamp_within_limits.
Qed.

Lemma arrow_key_restores_limits_witness :
  angles (fst (loop_body UP_ARROW (set_angles init_node nan infinity))) = (55, 55)%float
  /\ within_limits (pan_angle (fst (loop_body UP_ARROW (set_angles init_node nan infinity)))).
Proof.
  split; [ reflexivity | ].
  apply (arrow_key_restores_limits UP_ARROW (0, -1) (set_angles init_node nan infinity));
    [ reflexivity | repeat split ].
Defined.

(** ** What [main] sends *)

Lemma session_invariant_init : session_invariant init_node.
Proof.
  unfold session_invariant, directions, direction, nonneg, within_limits, hardcoded.
  cbn. repeat split; (reflexivity || lia).
Qed.

Lemma session_invariant_loop_body key node :
  session_invariant node -> session_invariant (fst (loop_body key node)).
Proof.
  intros (Hh & Hp & Ht & Hd & Hs & Hr).
  destruct (loop_body_invariant key node Hh Hp Ht) as (Hh' & Hp' & Ht').
  destruct (nonneg_scales_loop_body key node Hs Hr) as [Hs' Hr'].
  pose proof (directions_loop_body key node Hd) as Hd'.
  exact (conj Hh' (conj Hp' (conj Ht' (conj Hd' (conj Hs' Hr'))))).
Qed.

(** Every event of the loop is one of the decoder's, or one the timer
    callback emits on a node the invariant holds of. *)
Lemma loop_events_invariant (Inv : Node -> Prop) :
  (forall key node, Inv node -> Inv (fst (loop_body key node))) ->
  forall script pending node ev,
    Inv node -> In ev (events (loop script pending node)) ->
    ev = SetRaw \/ ev = RestoreTerminal
    \/ exists node', Inv node' /\ In ev (events (publish_commands node')).
Proof.
  intros Hstep. induction script as [| p script IH]; intros pending node ev Hi Hin;
    [ destruct Hin | ].
  destruct p as [e | arrived s]; [ cbn in Hin; intuition | ].
  destruct (get_key_done (pending ++ arrived)) as (key & pending' & Hk).
  pose proof (Hstep key node Hi) as Hi'.
  destruct (loop_body key node) as [node' [|]] eqn:Hb; cbn [fst] in Hi'.
  - rewrite (loop_continue _ _ _ _ _ _ _ _ Hk Hb) in Hin.
    specialize (IH pending' node' ev Hi').
    destruct (loop script pending' node') as [tr r].
    destruct s; cbn in Hin, IH.
    + destruct Hin as [Hin | [Hin | Hin]]; auto.
    + destruct Hin as [Hin | [Hin | [Hin | [Hin | Hin]]]]; auto;
        right; right; exists node'; (split; [ assumption | ]); cbn; auto.
    + intuition.
  - rewrite (break_ends_loop _ _ _ _ _ _ _ _ _ Hk Hb) in Hin.
    cbn in Hin. intuition.
Qed.

(** X13: every pan-tilt message [main] sends, on any script, has speed 30
    and a yaw and a pitch in [[-55, 55]]. *)
Theorem main_ptu_messages (script : list poll) (msg : PanTiltCmdDeg) :
  In (PublishPtu msg) (events (main script)) ->
  cmd_speed msg = 30 /\ within_limits (cmd_yaw msg) /\ within_limits (cmd_pitch msg).
Proof.
  destruct (loop script [] init_node) as [tr r] eqn:Hl.
  rewrite (main_trace _ _ _ Hl). cbn [events fst].
  rewrite in_app_iff. intros [Hin | Hin]; [ | cbn in Hin; intuition discriminate ].
  destruct (loop_events_invariant session_invariant session_invariant_loop_body
              script [] init_node (PublishPtu msg) session_invariant_init)
    as [H | [H | (node & Hi & H)]]; try discriminate; [ rewrite Hl; exact Hin | ].
  destruct Hi as (_ & Hp & Ht & _).
  cbn in H. destruct H as [H | [H | []]]; [ discriminate | ].
  injection H as <-. cbn. split; [ reflexivity | split; assumption ].
Qed.

Lemma main_ptu_messages_witness :
  cmd_speed (mkPanTiltCmdDeg 30 2 0) = 30
  /\ within_limits (cmd_yaw (mkPanTiltCmdDeg 30 2 0))
  /\ within_limits (cmd_pitch (mkPanTiltCmdDeg 30 2 0)).
Proof.
  apply (main_ptu_messages [Read (list_ascii_of_string LEFT_ARROW) SpinTimer]
           (mkPanTiltCmdDeg 30 2 0)).
  vm_compute. auto 10.
Defined.

(** X14: every velocity message [main] sends, the stop message of the
    teardown included, has its angular x and y at 0, and each other component
    is -1, 0 or 1 times a scale that is neither negative nor a NaN. *)
Theorem main_twist_messages (script : list poll) (msg : Twist) :
  In (PublishTwist msg) (events (main script)) ->
  exists vx vy vz vth s t,
    directions (vx, vy, vz, vth) /\ nonneg s /\ nonneg t
    /\ msg = mkTwist (mkVector3 (Py.float_of_int vx * s) (Py.float_of_int vy * s)
                                (Py.float_of_int vz * s))
                     (mkVector3 0 0 (Py.float_of_int vth * t)).
Proof.
  destruct (loop script [] init_node) as [tr r] eqn:Hl.
  rewrite (main_trace _ _ _ Hl). cbn [events fst].
  rewrite in_app_iff. intros [Hin | Hin].
  - destruct (loop_events_invariant session_invariant session_invariant_loop_body
                script [] init_node (PublishTwist msg) session_invariant_init)
      as [H | [H | (node & Hi & H)]]; try discriminate; [ rewrite Hl; exact Hin | ].
    destruct Hi as (_ & _ & _ & Hd & Hs & Ht).
    cbn in H. destruct H as [H | [H | []]]; [ | discriminate ].
    injection H as <-.
    exists (x node), (y node), (z node), (th node), (speed node), (turn node).
    split; [ exact Hd | split; [ exact Hs | split; [ exact Ht | reflexivity ] ] ].
  - cbn in Hin. destruct Hin as [Hin | Hin]; [ | intuition discriminate ].
    injection Hin as <-. exists 0, 0, 0, 0, 1%float, 1%float.
    repeat split; unfold direction; lia.
Qed.

Lemma main_twist_messages_witness :
  exists vx vy vz vth s t,
    directions (vx, vy, vz, vth) /\ nonneg s /\ nonneg t
    /\ mkTwist (mkVector3 0.5 0 0) (mkVector3 0 0 0) =
       mkTwist (mkVector3 (Py.float_of_int vx * s) (Py.float_of_int vy * s)
                          (Py.float_of_int vz * s))
               (mkVector3 0 0 (Py.float_of_int vth * t)).
Proof.
  apply (main_twist_messages [Read ["i"%char] SpinTimer]).
  vm_compute. auto 10.
Defined.

(** X15: [main] leaves the terminal out of raw mode on every script, also
    when the read of a key raises between [tty.setraw] and the restore. *)
Theorem main_restores_terminal (script : list poll) (raw : bool) :
  terminal_raw (events (main script)) raw = false.
Proof.
  destruct (loop script [] init_node) as [tr r] eqn:Hl.
  rewrite (main_trace _ _ _ Hl). cbn [events fst].
  unfold terminal_raw. rewrite fold_left_app. reflexivity.
Qed.
